(** * Intraday-Scanner: a shallow embedding of scanner.py and trend.py

    Python floats are modelled as rationals [Q].  Where the Python code
    can produce a NaN (a missing value in a pandas column, a numpy
    division by zero) the model uses [option Q], [None] standing for the
    missing or non-finite value.  Calls into yfinance, requests and
    pandas_ta are external collaborators and appear as Section variables. *)

From Stdlib Require Import Ascii String.
From Stdlib Require Import ZArith QArith Qabs Qminmax List Bool Arith Lia.
From Stdlib Require Import Sorted Permutation Lqa Psatz.
Import ListNotations.
Open Scope Q_scope.

(** ** Python helpers shared by both scripts *)
Module Py.

(** Python [x > c] on floats. *)
Definition gtb (x c : Q) : bool := negb (Qle_bool x c).

(** Python [x < c] on floats. *)
Definition ltb (x c : Q) : bool := negb (Qle_bool c x).

(** The exceptions that matter to the modelled code. *)
Inductive exn := AttributeError | TypeError | ValueError | KeyError.

(** A computation that either returns or raises. *)
Inductive res (A : Type) := Ok (a : A) | Raise (e : exn).
Arguments Ok {A} a.
Arguments Raise {A} e.

(** [sorted(xs, key=k, reverse=True)]: Python's sort is stable, so
    [reverse=True] keeps equal keys in input order.  [ge a b] is the
    test [key a >= key b].  [insert_desc] places [x] before the first
    element whose key is not larger than its own. *)
Section SortDesc.
Variable A : Type.
Variable ge : A -> A -> bool.

Fixpoint insert_desc (x : A) (l : list A) : list A :=
  match l with
  | [] => [x]
  | y :: l' => if ge x y then x :: y :: l' else y :: insert_desc x l'
  end.

Fixpoint sort_desc (l : list A) : list A :=
  match l with
  | [] => []
  | x :: l' => insert_desc x (sort_desc l')
  end.

Lemma insert_desc_perm x l : Permutation (insert_desc x l) (x :: l).
Proof.
  induction l as [|y l IH]; simpl; [reflexivity|].
  destruct (ge x y); [reflexivity|].
  rewrite IH. apply perm_swap.
Qed.

Lemma sort_desc_perm l : Permutation (sort_desc l) l.
Proof.
  induction l as [|x l IH]; simpl; [reflexivity|].
  rewrite insert_desc_perm. now constructor.
Qed.

Hypothesis ge_total : forall a b, ge a b = false -> ge b a = true.

Lemma insert_desc_sorted x l :
  Sorted (fun a b => ge a b = true) l ->
  Sorted (fun a b => ge a b = true) (insert_desc x l).
Proof.
  induction 1 as [|y l Hs IH Hhd]; simpl.
  - repeat constructor.
  - destruct (ge x y) eqn:Exy.
    + constructor; [constructor; assumption|]. now constructor.
    + constructor; [exact IH|].
      destruct l as [|z l]; simpl.
      * constructor. now apply ge_total.
      * inversion Hhd; subst.
        destruct (ge x z); constructor; [now apply ge_total|assumption].
Qed.

Lemma sort_desc_sorted l : Sorted (fun a b => ge a b = true) (sort_desc l).
Proof.
  induction l as [|x l IH]; simpl; [constructor|].
  now apply insert_desc_sorted.
Qed.
End SortDesc.
Arguments insert_desc {A} ge x l.
Arguments sort_desc {A} ge l.

End Py.
Import Py.

(** ** scanner.py *)
Module Scanner.

(** A row of [yf.Ticker(t).history(...)]: every column may hold NaN. *)
Record bar := mkBar {
  Open : option Q; High : option Q; Low : option Q; Close : option Q;
  Volume : option Q; Dividends : option Q; StockSplits : option Q }.

(** A row that survived [DF.dropna()]. *)
Record row := mkRow {
  r_open : Q; r_high : Q; r_low : Q; r_close : Q; r_volume : Q }.

Definition clean (b : bar) : option row :=
  match Open b, High b, Low b, Close b, Volume b, Dividends b, StockSplits b with
  | Some o, Some h, Some l, Some c, Some v, Some _, Some _ => Some (mkRow o h l c v)
  | _, _, _, _, _, _, _ => None
  end.

(** [DF.dropna()] *)
Fixpoint dropna (bs : list bar) : list row :=
  match bs with
  | [] => []
  | b :: bs' =>
      match clean b with
      | Some r => r :: dropna bs'
      | None => dropna bs'
      end
  end.

Inductive signal := BUY | WATCH | SKIP.

Definition signal_eqb (a b : signal) : bool :=
  match a, b with
  | BUY, BUY | WATCH, WATCH | SKIP, SKIP => true
  | _, _ => false
  end.

(** The dictionary returned by [get_latest_indicators]. *)
Record result := mkResult {
  ticker : string;
  current_price : Q; open_price : Q; high : Q; low : Q;
  price_change_pct : option Q;   (* numpy: [None] is inf/nan *)
  volume_ratio : Q;
  rsi : Q; ema_20 : Q; ema_50 : Q; adx : Q;
  is_uptrend : bool; ema_bullish : bool; strong_trend : bool;
  signal_of : signal;            (* the ['signal'] entry *)
  signal_score : nat }.

(** Lines 47-59 of scanner.py: the trading signals and the overall
    signal of the latest row. *)
Definition classify (rsi_v ema20 ema50 adx_v : Q)
  : bool * bool * bool * nat * signal :=
  let is_uptrend := gtb rsi_v 50 in
  let ema_bullish := negb (Qle_bool ema20 ema50) in
  let strong_trend := gtb adx_v 25 in
  let signal_score := (Nat.b2n is_uptrend + Nat.b2n ema_bullish
                       + Nat.b2n strong_trend)%nat in
  let signal :=
    if (2 <=? signal_score)%nat && is_uptrend then BUY
    else if (2 <=? signal_score)%nat then WATCH
    else SKIP in
  (is_uptrend, ema_bullish, strong_trend, signal_score, signal).

(** numpy float division: a zero divisor gives inf or nan, not an error. *)
Definition np_div (a b : Q) : option Q :=
  if Qeq_bool b 0 then None else Some (a / b).

Fixpoint sumQ (l : list Q) : Q :=
  match l with [] => 0 | x :: l' => x + sumQ l' end.

(** [s.tail(n)] *)
Definition tail_n {A} (n : nat) (l : list A) : list A :=
  skipn (length l - n) l.

Definition mean (l : list Q) : Q := sumQ l / inject_Z (Z.of_nat (length l)).

Section Indicators.
(** [yf.Ticker(t).history(start, end, interval="1d")]; [None] when the call
    returns [None] or raises (both end in [return None]). *)
Variable history : string -> option (list bar).
(** The pandas_ta columns EMA_n and RSI, one value per row. *)
Variable ema : nat -> list row -> list Q.
Variable rsi_ta : nat -> list row -> list Q.
(** [DF.ta.adx(length=14)]; [None] when no [ADX_14] column is appended,
    in which case [latest['ADX']] raises a KeyError that is caught. *)
Variable adx_ta : nat -> list row -> option (list Q).

Definition get_latest_indicators (t : string) : option result :=
  match history t with
  | None => None
  | Some data =>
    if (length data =? 0)%nat then None else
    let DF := dropna data in
    if (length DF <? 50)%nat then None else
    match adx_ta 14 DF with
    | None => None
    | Some adx_col =>
      let dflt := mkRow 0 0 0 0 0 in
      let latest := last DF dflt in
      let prev := last (removelast DF) dflt in
      let e20 := last (ema 20 DF) 0 in
      let e50 := last (ema 50 DF) 0 in
      let rs := last (rsi_ta 14 DF) 0 in
      let ad := last adx_col 0 in
      let pcp := option_map (fun x => x * 100)
                   (np_div (r_close latest - r_close prev) (r_close prev)) in
      let m := mean (tail_n 20 (map r_volume DF)) in
      let vr := if gtb m 0 then r_volume latest / m else 0 in
      match classify rs e20 e50 ad with
      | (up, bull, strong, score, sig) =>
        Some (mkResult t (r_close latest) (r_open latest) (r_high latest)
                (r_low latest) pcp vr rs e20 e50 ad up bull strong sig score)
      end
    end
  end.

(** [scan_stocks]: a returned dictionary is always non-empty, hence truthy. *)
Fixpoint scan_stocks (stock_list : list string) : list result :=
  match stock_list with
  | [] => []
  | t :: ts =>
      match get_latest_indicators t with
      | Some d => d :: scan_stocks ts
      | None => scan_stocks ts
      end
  end.
End Indicators.

Definition is_signal (s : signal) (r : result) : bool := signal_eqb (signal_of r) s.

Definition rsi_ge (a b : result) : bool := Qle_bool (rsi b) (rsi a).
Definition score_ge (a b : result) : bool := (signal_score b <=? signal_score a)%nat.

(** [display_scan_results]: the BUY and WATCH tables it prints (their rows
    in printing order; an empty list prints no table) and the pair it
    returns. *)
Record display := mkDisplay {
  buy_table : list result;
  watch_table : list result;
  returned : list result * list result }.

Definition display_scan_results (results : list result) : display :=
  let buy_signals := filter (is_signal BUY) results in
  let watch_signals := filter (is_signal WATCH) results in
  mkDisplay (sort_desc rsi_ge buy_signals)
            (sort_desc score_ge watch_signals)
            (buy_signals, watch_signals).

End Scanner.

(** ** trend.py *)
Module Trend.

(** [pct_change]: a zero [prev] raises ZeroDivisionError, caught into [None]. *)
Definition pct_change (curr prev : Q) : option Q :=
  if Qeq_bool prev 0 then None else Some ((curr - prev) / prev * 100).

(** The dictionary built for one reference symbol. *)
Record quote := mkQuote {
  q_symbol : string; last_close : Q; latest : Q; pct : option Q }.

Section Fetch.
(** [yf.Ticker(sym).history(period="2d")['Close']]; [None] when the call raises. *)
Variable history2d : string -> option (list Q).

(** One iteration of [fetch_yf_symbols]; [hist.empty] gives [None]. *)
Definition fetch_one (name sym : string) : res (string * option quote) :=
  match history2d sym with
  | None => Raise ValueError
  | Some [] => Ok (name, None)
  | Some ((_ :: _) as hist) =>
      let latest_v := last hist 0 in
      let last_close_v :=
        if (2 <=? List.length hist)%nat then last (removelast hist) 0 else latest_v in
      Ok (name, Some (mkQuote sym last_close_v latest_v (pct_change latest_v last_close_v)))
  end.

Fixpoint fetch_yf_symbols (symbols : list (string * string))
  : res (list (string * option quote)) :=
  match symbols with
  | [] => Ok []
  | (name, sym) :: rest =>
      match fetch_one name sym with
      | Raise e => Raise e
      | Ok e =>
          match fetch_yf_symbols rest with
          | Raise e' => Raise e'
          | Ok out => Ok (e :: out)
          end
      end
  end.
End Fetch.

(** The strings of [details]: the float formatting is kept abstract. *)
Inductive detail :=
  | DUp (name : string) (p : Q)
  | DDown (name : string) (p : Q)
  | DGift (v : Q)
  | DVixUp (p : Q)
  | DVixDown (p : Q).

(** One iteration of the loop over [us_data] (weight [w] = 1) or over
    [asia_data] (weight [w] = 0.5).  [info.get("pct", 0)] always finds
    the key in a dictionary built by [fetch_yf_symbols]. *)
Definition index_step (w : Q) (acc : Q * list detail)
  (e : string * option quote) : Q * list detail :=
  let (score, details) := acc in
  let (name, o) := e in
  match o with
  | Some info =>
      match pct info with
      | Some p =>
          if gtb p 0 then (score + w, details ++ [DUp name p])
          else (score - w, details ++ [DDown name p])
      | None => acc
      end
  | None => acc
  end.

(** Lines 153-156: the GIFT value only adds a detail. *)
Definition gift_step (gift : option Q) (acc : Q * list detail) : Q * list detail :=
  match gift with
  | Some v => if negb (Qeq_bool v 0) then (fst acc, snd acc ++ [DGift v]) else acc
  | None => acc
  end.

(** Lines 157-163: the India VIX adjustment. *)
Definition vix_step (vix : option quote) (acc : Q * list detail) : Q * list detail :=
  match vix with
  | Some vq =>
      match pct vq with
      | Some p =>
          if gtb p 3 then (fst acc - (3 # 2), snd acc ++ [DVixUp p])
          else if ltb p (-2) then (fst acc + (1 # 2), snd acc ++ [DVixDown p])
          else acc
      | None => acc
      end
  | None => acc
  end.

(** [score_market(us_data, asia_data, gift, vix)]; [gift] is the
    ["value"] of the scraped dictionary. *)
Definition score_market (us_data asia_data : list (string * option quote))
  (gift : option Q) (vix : option quote) : Q * list detail :=
  let acc := fold_left (index_step 1) us_data (0, []) in
  let acc := fold_left (index_step (1 # 2)) asia_data acc in
  vix_step vix (gift_step gift acc).

Inductive bias := BULLISH | NEUTRAL | BEARISH.

(** Line 266 of trend.py. *)
Definition bias_of (score : Q) : bias :=
  if gtb score 1 then BULLISH else if ltb score (-1) then BEARISH else NEUTRAL.

End Trend.

(** ** trend.py: [analyze_preopen_and_pick_stocks] *)
Module Preopen.
Import Trend.
Local Set Warnings "-register-all".

(** A JSON value as returned by [r.json()]; objects keep key order. *)
Inductive jval :=
  | JNull
  | JBool (b : bool)
  | JNum (q : Q)
  | JStr (s : string)
  | JList (l : list jval)
  | JObj (o : list (string * jval)).

(** Python truthiness. *)
Definition truthy (v : jval) : bool :=
  match v with
  | JNull => false
  | JBool b => b
  | JNum q => negb (Qeq_bool q 0)
  | JStr s => negb (String.eqb s "")
  | JList l => match l with [] => false | _ => true end
  | JObj o => match o with [] => false | _ => true end
  end.

(** [a or b] *)
Definition por (a b : jval) : jval := if truthy a then a else b.

Fixpoint assoc (k : string) (o : list (string * jval)) : option jval :=
  match o with
  | [] => None
  | (k', v) :: o' => if String.eqb k k' then Some v else assoc k o'
  end.

(** [d.get(k)] *)
Definition get (o : list (string * jval)) (k : string) : jval :=
  match assoc k o with Some v => v | None => JNull end.

(** The loop over [preopen_data.values()] looking for the first list. *)
Fixpoint first_list (vs : list jval) : list jval :=
  match vs with
  | [] => []
  | JList l :: _ => l
  | _ :: vs' => first_list vs'
  end.

(** Lines 177-192: the row set of the snapshot. *)
Definition rows_of (preopen_data : jval) : list jval :=
  match preopen_data with
  | JObj o =>
      match assoc "data" o with
      | Some (JList l) => l
      | _ =>
          match assoc "result" o with
          | Some (JList l) => l
          | _ => first_list (map snd o)
          end
      end
  | JList l => l
  | _ => []
  end.

(** A candidate dictionary; [gap_pct] and [qty] are [None] where the
    code stores Python [None]. *)
Record candidate := mkCand {
  c_symbol : jval; prev_close : Q; preopen : Q;
  gap_pct : option Q; qty : option Q }.

(** [s.replace(".NS", "")] *)
Fixpoint replace_ns (s : string) : string :=
  match s with
  | String "."%char (String "N"%char (String "S"%char rest)) => replace_ns rest
  | String c rest => String c (replace_ns rest)
  | EmptyString => EmptyString
  end.

Definition DEFAULT_STOCK_POOL : list string :=
  ["RELIANCE.NS"; "TCS.NS"; "HDFCBANK.NS"; "INFY.NS"; "ICICIBANK.NS";
   "HINDUNILVR.NS"; "SBIN.NS"; "BHARTIARTL.NS"; "ITC.NS"; "KOTAKBANK.NS";
   "LT.NS"; "AXISBANK.NS"; "BAJFINANCE.NS"; "WIPRO.NS"; "ASIANPAINT.NS";
   "MARUTI.NS"; "TITAN.NS"; "SUNPHARMA.NS"; "ULTRACEMCO.NS"; "NESTLEIND.NS";
   "HCLTECH.NS"; "TATAMOTORS.NS"; "POWERGRID.NS"; "NTPC.NS"; "TECHM.NS";
   "BAJAJFINSV.NS"; "ONGC.NS"; "M&M.NS"; "ADANIPORTS.NS"; "DIVISLAB.NS"]%string.

(** [1e-9] *)
Definition eps : Q := 1 # 1000000000.

(** A row of the ranked DataFrame; [None] is NaN. *)
Record ranked := mkRanked {
  cand : candidate; abs_gap : option Q; qty_norm : option Q; score : option Q }.

(** [sort_values('score', ascending=False)]: NaN scores go last. *)
Definition score_ge (a b : ranked) : bool :=
  match score a, score b with
  | _, None => true
  | None, Some _ => false
  | Some x, Some y => Qle_bool y x
  end.

Fixpoint omap_qty (cs : list candidate) : list Q :=
  match cs with
  | [] => []
  | c :: cs' => match qty c with Some q => q :: omap_qty cs' | None => omap_qty cs' end
  end.

Definition list_min (l : list Q) : Q :=
  match l with [] => 0 | x :: l' => fold_left Qmin l' x end.
Definition list_max (l : list Q) : Q :=
  match l with [] => 0 | x :: l' => fold_left Qmax l' x end.

(** [df['qty_norm']] for one row, given the non-null quantities [qs]. *)
Definition norm_of (qs : list Q) (c : candidate) : option Q :=
  match qs with
  | [] => Some 0
  | _ => option_map (fun q => (q - list_min qs) / (list_max qs - list_min qs + eps)) (qty c)
  end.

(** [df['score'] = df['abs_gap'] * 0.7 + df['qty_norm'] * 0.3] *)
Definition score_of (ag n : option Q) : option Q :=
  match ag, n with
  | Some a, Some m => Some (a * (7 # 10) + m * (3 # 10))
  | _, _ => None
  end.

Definition rank_row (qs : list Q) (c : candidate) : ranked :=
  let ag := option_map Qabs (gap_pct c) in
  let n := norm_of qs c in
  mkRanked c ag n (score_of ag n).

(** Lines 236-251.  A [gap_pct] column holding only [None] has object
    dtype, and [.abs()] on it raises a TypeError.  [sort_values] is
    modelled by a stable sort; pandas' default quicksort may order equal
    scores differently, so only the order up to ties is the program's. *)
Definition rank (candidates : list candidate) (top_n : nat) : res (list ranked) :=
  match candidates with
  | [] => Ok []
  | _ =>
      if forallb (fun c => match gap_pct c with None => true | Some _ => false end)
           candidates
      then Raise TypeError
      else
        let qs := omap_qty candidates in
        Ok (firstn top_n (sort_desc score_ge (map (rank_row qs) candidates)))
  end.

Section Analyze.
(** Python's [float(s)] on a string; [None] when it raises ValueError. *)
Variable parse_float : string -> option Q.
(** [yf.Ticker(s).history(period="2d")['Close']]; [None] when the call raises. *)
Variable history2d : string -> option (list Q).

(** [float(v)] *)
Definition py_float (v : jval) : option Q :=
  match v with
  | JNum q => Some q
  | JBool b => Some (if b then 1 else 0)
  | JStr s => parse_float s
  | _ => None
  end.

(** One row of the loop at lines 194-213: [Raise] when [r] is no
    dictionary ([r.get] is called outside the [try]), [Ok None] when the
    row is skipped by [continue]. *)
Definition row_candidate (r : jval) : res (option candidate) :=
  match r with
  | JObj o =>
      let sym := por (get o "symbol") (por (get o "scrip") (get o "name")) in
      match py_float (por (get o "prev_close")
                       (por (get o "prevClose") (por (get o "previousClose") (JNum 0)))) with
      | None => Ok None
      | Some prev =>
          match py_float (por (get o "open")
                           (por (get o "preopen_price") (por (get o "preopen") (JNum prev)))),
                py_float (por (get o "qty")
                           (por (get o "quantity") (por (get o "tradedQty") (JNum 0)))) with
          | Some op, Some q =>
              if negb (truthy sym) then Ok None else
              let gap := if gtb prev 0 then pct_change op prev else Some 0 in
              Ok (Some (mkCand sym prev op gap (Some q)))
          | _, _ => Ok None
          end
      end
  | _ => Raise AttributeError
  end.

Fixpoint snapshot_candidates (rows : list jval) : res (list candidate) :=
  match rows with
  | [] => Ok []
  | r :: rs =>
      match row_candidate r with
      | Raise e => Raise e
      | Ok oc =>
          match snapshot_candidates rs with
          | Raise e => Raise e
          | Ok cs => Ok (match oc with Some c => c :: cs | None => cs end)
          end
      end
  end.

(** One instrument of the fallback loop at lines 216-233. *)
Definition pool_candidate (s : string) : option candidate :=
  match history2d s with
  | None => None
  | Some hist =>
      if (List.length hist <? 2)%nat then None else
      let prev := last (removelast hist) 0 in
      let latest_v := last hist 0 in
      Some (mkCand (JStr (replace_ns s)) prev latest_v (pct_change latest_v prev) None)
  end.

Fixpoint fallback_candidates (pool : list string) : list candidate :=
  match pool with
  | [] => []
  | s :: ss =>
      match pool_candidate s with
      | Some c => c :: fallback_candidates ss
      | None => fallback_candidates ss
      end
  end.

Definition analyze_preopen_and_pick_stocks (preopen_data : jval)
  (pool : list string) (top_n : nat) : res (list ranked) :=
  let snap := if truthy preopen_data then snapshot_candidates (rows_of preopen_data)
              else Ok [] in
  match snap with
  | Raise e => Raise e
  | Ok candidates =>
      let candidates :=
        match candidates with [] => fallback_candidates pool | _ => candidates end in
      rank candidates top_n
  end.
End Analyze.

End Preopen.

(** ** trend.py: the remaining fetchers and [run_scan] *)
Module Run.
Import Trend Preopen.

Definition US_SYMBOLS : list (string * string) :=
  [("S&P500", "^GSPC"); ("Dow", "^DJI"); ("Nasdaq", "^IXIC")]%string.
Definition ASIA_SYMBOLS : list (string * string) :=
  [("Nikkei", "^N225"); ("HangSeng", "^HSI")]%string.
Definition INDIA_VIX : string := "^INDIAVIX".

Section Fetchers.
(** [yf.Ticker(sym).history(period="2d")['Close']]; [None] when the call raises. *)
Variable history2d : string -> option (list Q).

(** [fetch_india_vix]: no [try], so a failing call propagates. *)
Definition fetch_india_vix : res (option quote) :=
  match history2d INDIA_VIX with
  | None => Raise ValueError
  | Some [] => Ok None
  | Some ((_ :: _) as hist) =>
      let latest_v := last hist 0 in
      let last_close_v :=
        if (2 <=? List.length hist)%nat then last (removelast hist) 0 else latest_v in
      Ok (Some (mkQuote INDIA_VIX last_close_v latest_v (pct_change latest_v last_close_v)))
  end.
End Fetchers.

Section Scrape.
(** Python's [float(s)] on a string; [None] when it raises ValueError. *)
Variable parse_float : string -> option Q.

(** Lines 95-104 of [scrape_gift_nifty]: the first number found on the
    page whose value exceeds 1000.  The numbers are those of [re.findall]
    on the page text. *)
Fixpoint first_over_1000 (nums : list string) : option Q :=
  match nums with
  | [] => None
  | n :: ns =>
      match parse_float n with
      | Some v => if gtb v 1000 then Some v else first_over_1000 ns
      | None => first_over_1000 ns
      end
  end.

(** [scrape_gift_nifty]; [page_numbers] is [None] when the request or the
    parsing raises (caught by the outer [try]).  The ["value"] of the
    returned dictionary. *)
Definition scrape_gift_nifty (page_numbers : option (list string)) : option Q :=
  match page_numbers with
  | None => None
  | Some nums => first_over_1000 nums
  end.
End Scrape.

(** What [run_scan] computes before printing: the bias score, its label,
    the details and the watchlist.  [gift] is the result of
    [scrape_gift_nifty] and [preopen] that of [fetch_preopen_fo] ([JNull]
    for [None]); both catch every exception.  The printing is left out. *)
Definition run_scan (parse_float : string -> option Q)
  (history2d : string -> option (list Q)) (gift : option Q) (preopen : jval)
  : res (Q * bias * list detail * list ranked) :=
  match fetch_yf_symbols history2d US_SYMBOLS with
  | Raise e => Raise e
  | Ok us =>
    match fetch_yf_symbols history2d ASIA_SYMBOLS with
    | Raise e => Raise e
    | Ok asia =>
      match fetch_india_vix history2d with
      | Raise e => Raise e
      | Ok vix =>
        let (score, details) := score_market us asia gift vix in
        let b := bias_of score in
        match analyze_preopen_and_pick_stocks parse_float history2d preopen
                DEFAULT_STOCK_POOL 6 with
        | Raise e => Raise e
        | Ok watch => Ok (score, b, details, watch)
        end
      end
    end
  end.

(** The length of a list as a rational. *)
Definition qlen {A} (l : list A) : Q := inject_Z (Z.of_nat (List.length l)).

End Run.

(** ** The spec's own wording, for comparison with the code *)
Module SpecWords.
Import Scanner Trend.

(** Section 4.2: the three booleans, the count, and the precedence
    BUY, then WATCH, then SKIP. *)
Definition signal_props (d : result) : Prop :=
  (is_uptrend d = true <-> 50 < rsi d) /\
  (ema_bullish d = true <-> ema_50 d < ema_20 d) /\
  (strong_trend d = true <-> 25 < adx d) /\
  signal_score d = (Nat.b2n (is_uptrend d) + Nat.b2n (ema_bullish d)
                    + Nat.b2n (strong_trend d))%nat /\
  (signal_score d <= 3)%nat /\
  (signal_of d = BUY <-> (2 <= signal_score d)%nat /\ is_uptrend d = true) /\
  (signal_of d = WATCH <-> (2 <= signal_score d)%nat /\ is_uptrend d = false) /\
  (signal_of d = SKIP <-> (signal_score d < 2)%nat).

(** Section 4.4: the contribution of one index quote of weight [w]
    (1 for a primary market, 0.5 for a secondary one); an entry whose
    pct_change is unavailable contributes nothing. *)
Definition index_contrib (w : Q) (e : string * option quote) : Q :=
  match snd e with
  | Some info =>
      match pct info with
      | Some p => if Qlt_le_dec 0 p then w else - w
      | None => 0
      end
  | None => 0
  end.

(** The detail an index quote adds: one when it contributes, none when skipped. *)
Definition index_detail (e : string * option quote) : list detail :=
  match snd e with
  | Some info =>
      match pct info with
      | Some p => if Qlt_le_dec 0 p then [DUp (fst e) p] else [DDown (fst e) p]
      | None => []
      end
  | None => []
  end.

(** The volatility-index contribution. *)
Definition vix_contrib (vix : option quote) : Q :=
  match vix with
  | Some vq =>
      match pct vq with
      | Some p => if Qlt_le_dec 3 p then - (3 # 2)
                  else if Qlt_le_dec p (-2) then 1 # 2 else 0
      | None => 0
      end
  | None => 0
  end.

Definition vix_detail (vix : option quote) : list detail :=
  match vix with
  | Some vq =>
      match pct vq with
      | Some p => if Qlt_le_dec 3 p then [DVixUp p]
                  else if Qlt_le_dec p (-2) then [DVixDown p] else []
      | None => []
      end
  | None => []
  end.

Definition gift_detail (gift : option Q) : list detail :=
  match gift with
  | Some v => if Qeq_dec v 0 then [] else [DGift v]
  | None => []
  end.

(** [sort_values('score', ascending=False)] order: a row with a numeric
    score precedes only rows whose score is not larger (or NaN). *)
Definition score_desc (a b : Preopen.ranked) : Prop :=
  match Preopen.score b with
  | None => True
  | Some y => exists x, Preopen.score a = Some x /\ y <= x
  end.

End SpecWords.

(** ** Facts about the comparisons *)
Module Facts.

Lemma gtb_spec x c : gtb x c = true <-> c < x.
Proof.
  unfold gtb. rewrite negb_true_iff. split; intro H.
  - apply Qnot_le_lt. intro H'. apply Qle_bool_iff in H'. congruence.
  - destruct (Qle_bool x c) eqn:E; [|reflexivity].
    apply Qle_bool_iff in E. exfalso. apply (Qlt_not_le _ _ H E).
Qed.

Lemma gtb_false x c : gtb x c = false <-> x <= c.
Proof.
  unfold gtb. rewrite negb_false_iff. apply Qle_bool_iff.
Qed.

Lemma ltb_spec x c : ltb x c = true <-> x < c.
Proof. apply gtb_spec. Qed.

Lemma ltb_false x c : ltb x c = false <-> c <= x.
Proof. apply gtb_false. Qed.

Lemma Sorted_mono {A} (R S : A -> A -> Prop) (l : list A) :
  (forall a b, R a b -> S a b) -> Sorted R l -> Sorted S l.
Proof.
  intros HRS H. induction H as [|a l Hs IH Hhd]; constructor; [exact IH|].
  destruct Hhd; constructor. now apply HRS.
Qed.

End Facts.
Import Facts.

(** ** The claims *)
Module Claims.
Import Scanner Trend Preopen.

(** The classification of [classify], as a statement on propositions. *)
Lemma classify_props (r e20 e50 a : Q) :
  match classify r e20 e50 a with
  | (up, bull, strong, sc, sig) =>
      (up = true <-> 50 < r) /\ (bull = true <-> e50 < e20) /\
      (strong = true <-> 25 < a) /\
      sc = (Nat.b2n up + Nat.b2n bull + Nat.b2n strong)%nat /\ (sc <= 3)%nat /\
      (sig = BUY <-> (2 <= sc)%nat /\ up = true) /\
      (sig = WATCH <-> (2 <= sc)%nat /\ up = false) /\
      (sig = SKIP <-> (sc < 2)%nat)
  end.
Proof.
  unfold classify.
  split; [apply gtb_spec|]. split; [apply gtb_spec|]. split; [apply gtb_spec|].
  split; [reflexivity|].
  destruct (gtb r 50), (negb (Qle_bool e20 e50)), (gtb a 25); simpl;
    repeat split; intros; try lia; try discriminate;
    repeat match goal with H : _ /\ _ |- _ => destruct H end;
    try discriminate; try lia; reflexivity.
Qed.

Lemma rsi_ge_total a b : rsi_ge a b = false -> rsi_ge b a = true.
Proof.
  unfold rsi_ge. intro H. apply Qle_bool_iff.
  destruct (Qlt_le_dec (rsi a) (rsi b)) as [Hl|Hl]; [now apply Qlt_le_weak|].
  apply Qle_bool_iff in Hl. congruence.
Qed.

Lemma score_ge_total a b : Scanner.score_ge a b = false -> Scanner.score_ge b a = true.
Proof.
  unfold Scanner.score_ge. intro H. apply Nat.leb_gt in H. apply Nat.leb_le. lia.
Qed.

(** C1: every result of [get_latest_indicators] carries the three
    booleans RSI > 50, EMA_20 > EMA_50 and ADX > 25, a signal_score equal
    to their count (at most 3), and the signal BUY exactly when the score
    is at least 2 and RSI > 50, WATCH exactly when the score is at least 2
    and RSI <= 50, SKIP exactly when the score is below 2. *)
Theorem signal_classifier_precedence history ema rsi_ta adx_ta t d :
  get_latest_indicators history ema rsi_ta adx_ta t = Some d -> SpecWords.signal_props d.
Proof.
  unfold get_latest_indicators.
  destruct (history t) as [data|]; [|discriminate].
  destruct (List.length data =? 0)%nat; [discriminate|].
  destruct (List.length (dropna data) <? 50)%nat; [discriminate|].
  destruct (adx_ta 14%nat (dropna data)) as [col|]; [|discriminate].
  match goal with
  | |- context [classify ?a ?b ?c ?e] =>
      pose proof (classify_props a b c e) as Hc;
      destruct (classify a b c e) as [[[[up bull] strong] sc] sig]
  end.
  intro H. injection H as <-. exact Hc.
Qed.

Lemma signal_classifier_precedence_witness :
  exists d,
    get_latest_indicators
      (fun _ => Some (repeat (mkBar (Some 1) (Some 1) (Some 1) (Some 1) (Some 1)
                                    (Some 0) (Some 0)) 50))
      (fun n _ => if (n =? 20)%nat then [60] else [50])
      (fun _ _ => [40]) (fun _ _ => Some [30]) "RELIANCE.NS" = Some d /\
    signal_of d = WATCH /\ SpecWords.signal_props d.
Proof.
  eexists. split; [reflexivity|]. split; [reflexivity|].
  apply (signal_classifier_precedence
           (fun _ => Some (repeat (mkBar (Some 1) (Some 1) (Some 1) (Some 1) (Some 1)
                                         (Some 0) (Some 0)) 50))
           (fun n _ => if (n =? 20)%nat then [60] else [50])
           (fun _ _ => [40]) (fun _ _ => Some [30]) "RELIANCE.NS").
  reflexivity.
Defined.

(** C5: when the fetched series is absent, empty, or has fewer than 50
    bars left after [dropna], [get_latest_indicators] returns [None]; it
    does so before any indicator or division is computed. *)
Theorem indicator_engine_absence history ema rsi_ta adx_ta t :
  (forall data, history t = Some data -> (List.length (dropna data) < 50)%nat) ->
  get_latest_indicators history ema rsi_ta adx_ta t = None.
Proof.
  intro H. unfold get_latest_indicators.
  destruct (history t) as [data|] eqn:E; [|reflexivity].
  specialize (H data eq_refl).
  destruct (List.length data =? 0)%nat; [reflexivity|].
  apply Nat.ltb_lt in H. rewrite H. reflexivity.
Qed.

Lemma indicator_engine_absence_witness :
  (forall data, (fun _ : string => Some (@nil bar)) "TCS.NS"%string = Some data ->
                (List.length (dropna data) < 50)%nat) /\
  get_latest_indicators (fun _ => Some []) (fun _ _ => []) (fun _ _ => [])
    (fun _ _ => None) "TCS.NS" = None.
Proof.
  split.
  - intros data H. injection H as <-. simpl. lia.
  - apply (indicator_engine_absence (fun _ => Some []) (fun _ _ => []) (fun _ _ => [])
             (fun _ _ => None) "TCS.NS").
    intros data H. injection H as <-. simpl. lia.
Defined.

(** C7: [scan_stocks] keeps exactly the instruments whose
    [get_latest_indicators] succeeded, in input order, each instrument
    independently of the others; [display_scan_results] prints the BUY
    results sorted by RSI descending and the WATCH results sorted by
    signal_score descending (and returns both partitions in input order). *)
Theorem scan_aggregator_partitions history ema rsi_ta adx_ta ts :
  let results := scan_stocks history ema rsi_ta adx_ta ts in
  let disp := display_scan_results results in
  results = flat_map (fun t => match get_latest_indicators history ema rsi_ta adx_ta t with
                               | Some d => [d] | None => [] end) ts /\
  Permutation (buy_table disp) (filter (is_signal BUY) results) /\
  Sorted (fun a b => rsi b <= rsi a) (buy_table disp) /\
  Permutation (watch_table disp) (filter (is_signal WATCH) results) /\
  Sorted (fun a b => (signal_score b <= signal_score a)%nat) (watch_table disp) /\
  returned disp = (filter (is_signal BUY) results, filter (is_signal WATCH) results).
Proof.
  cbv zeta. repeat split.
  - induction ts as [|t ts IH]; simpl; [reflexivity|].
    destruct (get_latest_indicators history ema rsi_ta adx_ta t); simpl; congruence.
  - apply sort_desc_perm.
  - apply (Sorted_mono (fun a b => rsi_ge a b = true)).
    + intros a b H. now apply Qle_bool_iff.
    + apply sort_desc_sorted. exact rsi_ge_total.
  - apply sort_desc_perm.
  - apply (Sorted_mono (fun a b => Scanner.score_ge a b = true)).
    + intros a b H. now apply Nat.leb_le.
    + apply sort_desc_sorted. exact score_ge_total.
Qed.

Lemma index_step_spec w s d e :
  fst (index_step w (s, d) e) == s + SpecWords.index_contrib w e /\
  snd (index_step w (s, d) e) = d ++ SpecWords.index_detail e.
Proof.
  destruct e as [name [info|]]; unfold index_step, SpecWords.index_contrib,
    SpecWords.index_detail; simpl.
  - destruct (pct info) as [p|]; simpl; [|split; [ring|now rewrite app_nil_r]].
    destruct (Qlt_le_dec 0 p) as [Hp|Hp].
    + rewrite (proj2 (gtb_spec p 0) Hp). simpl. split; [ring|reflexivity].
    + rewrite (proj2 (gtb_false p 0) Hp). simpl. split; [ring|reflexivity].
  - split; [ring|now rewrite app_nil_r].
Qed.

Lemma index_fold w l s d :
  fst (fold_left (index_step w) l (s, d)) == s + sumQ (map (SpecWords.index_contrib w) l) /\
  snd (fold_left (index_step w) l (s, d)) = d ++ flat_map SpecWords.index_detail l.
Proof.
  revert s d. induction l as [|e l IH]; intros s d; cbn [fold_left map sumQ flat_map fst snd].
  - split; [ring|now rewrite app_nil_r].
  - destruct (index_step_spec w s d e) as [H1 H2].
    destruct (index_step w (s, d) e) as [s' d'] eqn:E. cbn [fst snd] in H1, H2.
    destruct (IH s' d') as [IH1 IH2]. split.
    + rewrite IH1, H1. ring.
    + rewrite IH2, H2. now rewrite app_assoc.
Qed.

Lemma gift_step_spec g acc :
  fst (gift_step g acc) = fst acc /\
  snd (gift_step g acc) = snd acc ++ SpecWords.gift_detail g.
Proof.
  destruct g as [v|]; unfold gift_step, SpecWords.gift_detail; simpl;
    [|split; [reflexivity|now rewrite app_nil_r]].
  destruct (Qeq_dec v 0) as [Hv|Hv].
  - rewrite (proj2 (Qeq_bool_iff v 0) Hv). simpl. split; [reflexivity|now rewrite app_nil_r].
  - destruct (Qeq_bool v 0) eqn:Ev; [apply Qeq_bool_iff in Ev; contradiction|].
    split; reflexivity.
Qed.

Lemma vix_step_spec v s d :
  fst (vix_step v (s, d)) == s + SpecWords.vix_contrib v /\
  snd (vix_step v (s, d)) = d ++ SpecWords.vix_detail v /\
  (forall d', fst (vix_step v (s, d')) = fst (vix_step v (s, d))).
Proof.
  unfold vix_step, SpecWords.vix_contrib, SpecWords.vix_detail.
  destruct v as [vq|]; [destruct (pct vq) as [p|]|]; cbn [fst snd];
    [| repeat split; [ring|now rewrite app_nil_r] ..].
  destruct (Qlt_le_dec 3 p) as [H3|H3].
  - rewrite (proj2 (gtb_spec p 3) H3). cbn [fst snd]. repeat split; ring.
  - rewrite (proj2 (gtb_false p 3) H3).
    destruct (Qlt_le_dec p (-2)) as [H2|H2].
    + rewrite (proj2 (ltb_spec p (-2)) H2). cbn [fst snd]. repeat split; ring.
    + rewrite (proj2 (ltb_false p (-2)) H2). cbn [fst snd].
      repeat split; [ring|now rewrite app_nil_r].
Qed.

(** C2: the bias score is the sum of independent contributions: +1 or
    -1 per primary-market quote with a pct_change (by its sign), +0.5 or
    -0.5 per secondary-market quote with a pct_change, -1.5 or +0.5 or
    nothing for the volatility index; quotes without pct_change add
    neither score nor detail; the GIFT value never changes the score. *)
Theorem market_bias_additive us asia gift vix :
  fst (score_market us asia gift vix) ==
    sumQ (map (SpecWords.index_contrib 1) us)
    + sumQ (map (SpecWords.index_contrib (1 # 2)) asia)
    + SpecWords.vix_contrib vix /\
  snd (score_market us asia gift vix) =
    flat_map SpecWords.index_detail us ++ flat_map SpecWords.index_detail asia
    ++ SpecWords.gift_detail gift ++ SpecWords.vix_detail vix /\
  (forall gift', fst (score_market us asia gift' vix) = fst (score_market us asia gift vix)).
Proof.
  unfold score_market.
  destruct (index_fold 1 us 0 []) as [U1 U2].
  destruct (fold_left (index_step 1) us (0, [])) as [s1 d1] eqn:E1. cbn [fst snd] in U1, U2.
  destruct (index_fold (1 # 2) asia s1 d1) as [A1 A2].
  destruct (fold_left (index_step (1 # 2)) asia (s1, d1)) as [s2 d2] eqn:E2.
  cbn [fst snd] in A1, A2.
  assert (Hg : forall g, gift_step g (s2, d2) = (s2, d2 ++ SpecWords.gift_detail g)).
  { intro g. destruct (gift_step_spec g (s2, d2)) as [G1 G2].
    destruct (gift_step g (s2, d2)). cbn [fst snd] in G1, G2. now subst. }
  rewrite Hg.
  destruct (vix_step_spec vix s2 (d2 ++ SpecWords.gift_detail gift)) as [V1 [V2 V3]].
  split; [|split].
  - rewrite V1, A1, U1. ring.
  - rewrite V2, A2, U2. now rewrite <- !app_assoc.
  - intro g'. rewrite Hg. apply V3.
Qed.

(** C3: the label is BULLISH exactly when score > 1, BEARISH exactly
    when score < -1, NEUTRAL otherwise; 1 and -1 are NEUTRAL. *)
Theorem bias_label_strict s :
  (bias_of s = BULLISH <-> 1 < s) /\
  (bias_of s = BEARISH <-> s < -1) /\
  (bias_of s = NEUTRAL <-> -1 <= s /\ s <= 1) /\
  bias_of 1 = NEUTRAL /\ bias_of (-1) = NEUTRAL.
Proof.
  split; [|split; [|split]]; [| | |split; reflexivity]; unfold bias_of;
    destruct (gtb s 1) eqn:E1;
    [apply gtb_spec in E1|apply gtb_false in E1| apply gtb_spec in E1|apply gtb_false in E1
    |apply gtb_spec in E1|apply gtb_false in E1];
    try (destruct (ltb s (-1)) eqn:E2; [apply ltb_spec in E2|apply ltb_false in E2]);
    split; intro H; try discriminate; try reflexivity; try lra;
    try (destruct H; lra).
Qed.

(** C6 counterexample: a snapshot row with a negative prior close gets
    gap 0, not (new - old) / old * 100 = -150. *)
Lemma gap_formula_counterexample :
  row_candidate (fun _ => None)
    (JObj [("symbol", JStr "ABC"); ("prev_close", JNum (-10)); ("open", JNum 5)]%string)
  = Ok (Some (mkCand (JStr "ABC") (-10) 5 (Some 0) (Some 0))) /\
  ~ (0 == (5 - (-10)) / (-10) * 100).
Proof.
  split; [reflexivity|]. intro H. discriminate H.
Qed.

(** C6 (amended): a snapshot row's gap is (open - prev) / prev * 100 when
    prev > 0 and 0 when prev <= 0, in particular when no prior-close key
    is present and prev defaults to 0; a fallback instrument's gap is
    (latest - prev) / prev * 100 whenever prev <> 0.  No gap computation
    raises. *)
Theorem gap_pct_guarded parse_float history2d :
  (forall o c, row_candidate parse_float (JObj o) = Ok (Some c) ->
     (0 < prev_close c ->
        gap_pct c = Some ((preopen c - prev_close c) / prev_close c * 100)) /\
     (prev_close c <= 0 -> gap_pct c = Some 0) /\
     (assoc "prev_close" o = None -> assoc "prevClose" o = None ->
      assoc "previousClose" o = None -> prev_close c = 0 /\ gap_pct c = Some 0)) /\
  (forall s c, pool_candidate history2d s = Some c -> ~ prev_close c == 0 ->
     gap_pct c = Some ((preopen c - prev_close c) / prev_close c * 100)).
Proof.
  split.
  - intros o c. unfold row_candidate.
    set (pv := por (get o "prev_close") _).
    destruct (py_float parse_float pv) as [prev|] eqn:Ep; [|discriminate].
    destruct (py_float parse_float (por (get o "open") _)) as [op|]; [|discriminate].
    destruct (py_float parse_float (por (get o "qty") _)) as [q|]; [|discriminate].
    destruct (negb (truthy _)); [discriminate|].
    intro H. injection H as <-. cbn [prev_close preopen gap_pct].
    split; [|split].
    + intro Hp. rewrite (proj2 (gtb_spec prev 0) Hp). unfold pct_change.
      destruct (Qeq_bool prev 0) eqn:E0; [|reflexivity].
      apply Qeq_bool_iff in E0. rewrite E0 in Hp. discriminate Hp.
    + intro Hp. now rewrite (proj2 (gtb_false prev 0) Hp).
    + intros H1 H2 H3. subst pv. unfold get in Ep. rewrite H1, H2, H3 in Ep.
      simpl in Ep. injection Ep as <-. split; reflexivity.
  - intros s c. unfold pool_candidate.
    destruct (history2d s) as [hist|]; [|discriminate].
    destruct (List.length hist <? 2)%nat; [discriminate|].
    intro H. injection H as <-. cbn [prev_close preopen gap_pct]. intro Hn.
    unfold pct_change. destruct (Qeq_bool _ 0) eqn:E0; [|reflexivity].
    apply Qeq_bool_iff in E0. contradiction.
Qed.

(** C8: an empty snapshot with an empty pool gives [[]] without error,
    as does any snapshot whose processing raises nothing and yields no
    candidate when the pool yields none; but a snapshot whose rows are not
    dictionaries (the list ["x"]) with an empty pool raises
    AttributeError, because [r.get("symbol")] is evaluated before the
    row's [try]. *)
Theorem gap_ranker_empty_cases parse_float history2d :
  analyze_preopen_and_pick_stocks parse_float history2d JNull [] 6 = Ok [] /\
  analyze_preopen_and_pick_stocks parse_float history2d (JList []) [] 6 = Ok [] /\
  (forall pre pool n,
     (truthy pre = true -> snapshot_candidates parse_float (rows_of pre) = Ok []) ->
     fallback_candidates history2d pool = [] ->
     analyze_preopen_and_pick_stocks parse_float history2d pre pool n = Ok []) /\
  analyze_preopen_and_pick_stocks parse_float history2d (JList [JStr "x"]) [] 6
    = Raise AttributeError.
Proof.
  split; [reflexivity|]. split; [reflexivity|]. split; [|reflexivity].
  intros pre pool n Hs Hf. unfold analyze_preopen_and_pick_stocks.
  destruct (truthy pre); [rewrite Hs by reflexivity|]; now rewrite Hf.
Qed.

Lemma first_list_first pre l post :
  Forall (fun v => forall l', v <> JList l') pre ->
  first_list (pre ++ JList l :: post) = l.
Proof.
  induction 1 as [|v pre Hv _ IH]; [reflexivity|].
  destruct v; try reflexivity; try exact IH.
  exfalso. eapply Hv. reflexivity.
Qed.

Lemma first_list_none vs :
  (forall v, In v vs -> forall l, v <> JList l) -> first_list vs = [].
Proof.
  induction vs as [|v vs IH]; intro H; [reflexivity|].
  destruct v; simpl; try (apply IH; intros; apply H; now right).
  exfalso. eapply H; [now left|reflexivity].
Qed.

Lemma rows_of_obj o :
  (forall l, assoc "data" o <> Some (JList l)) ->
  (forall l, assoc "result" o <> Some (JList l)) ->
  rows_of (JObj o) = first_list (map snd o).
Proof.
  intros Hd Hr. unfold rows_of.
  destruct (assoc "data" o) as [[]|] eqn:Ed;
    try (exfalso; eapply Hd; reflexivity);
  destruct (assoc "result" o) as [[]|] eqn:Er;
    try (exfalso; eapply Hr; reflexivity); reflexivity.
Qed.

(** C9: for a snapshot object with neither a ["data"] nor a ["result"]
    list, the rows are the first value of the object that is a list; when
    no value is a list there are no rows and the ranking runs on the
    fallback pool. *)
Theorem snapshot_fourth_shape o :
  (forall l, assoc "data" o <> Some (JList l)) ->
  (forall l, assoc "result" o <> Some (JList l)) ->
  (forall pre l post, map snd o = pre ++ JList l :: post ->
     Forall (fun v => forall l', v <> JList l') pre -> rows_of (JObj o) = l) /\
  ((forall v, In v (map snd o) -> forall l, v <> JList l) ->
     rows_of (JObj o) = [] /\
     forall parse_float history2d pool n,
       analyze_preopen_and_pick_stocks parse_float history2d (JObj o) pool n
       = rank (fallback_candidates history2d pool) n).
Proof.
  intros Hd Hr. rewrite (rows_of_obj o Hd Hr). split.
  - intros pre l post E Hpre. rewrite E. now apply first_list_first.
  - intro Hn. rewrite (first_list_none _ Hn). split; [reflexivity|].
    intros pf h pool n. unfold analyze_preopen_and_pick_stocks.
    rewrite (rows_of_obj o Hd Hr), (first_list_none _ Hn).
    destruct (truthy (JObj o)); reflexivity.
Qed.

Lemma snapshot_fourth_shape_witness :
  rows_of (JObj [("status", JStr "ok"); ("rows", JList [JNum 1]); ("more", JList [])]%string)
  = [JNum 1].
Proof.
  apply (proj1 (snapshot_fourth_shape
    [("status", JStr "ok"); ("rows", JList [JNum 1]); ("more", JList [])]%string
    (fun l H => ltac:(discriminate H)) (fun l H => ltac:(discriminate H)))
    [JStr "ok"] [JNum 1] [JList []]); [reflexivity|].
  constructor; [|constructor]. intros l' H. discriminate H.
Defined.

(** C10 counterexample: a single session whose close is 0 gives no
    pct_change (the division by zero is caught), so the quote adds
    nothing to the score instead of -1. *)
Lemma single_session_zero_counterexample :
  fetch_one (fun _ => Some [0]) "S&P500" "^GSPC"
    = Ok ("S&P500", Some (mkQuote "^GSPC" 0 0 None))%string /\
  fst (score_market [("S&P500", Some (mkQuote "^GSPC" 0 0 None))%string] [] None None) == 0 /\
  ~ (fst (score_market [("S&P500", Some (mkQuote "^GSPC" 0 0 None))%string] [] None None) == -1).
Proof.
  split; [reflexivity|]. split; [reflexivity|]. intro H. discriminate H.
Qed.

(** C10 (amended): with a one-session history [c], last_close = latest
    = c; when c <> 0 the pct_change is 0 and the quote takes the
    non-positive branch (-w for weight w: -1 primary, -0.5 secondary);
    when c = 0 the pct_change is unavailable and the quote is skipped. *)
Theorem single_session_quote history2d name sym c :
  history2d sym = Some [c] ->
  fetch_one history2d name sym = Ok (name, Some (mkQuote sym c c (pct_change c c))) /\
  (~ c == 0 -> exists p, pct_change c c = Some p /\ p == 0 /\
     forall w s d, index_step w (s, d) (name, Some (mkQuote sym c c (pct_change c c)))
                   = (s - w, d ++ [DDown name p])) /\
  (c == 0 -> pct_change c c = None /\
     forall w s d, index_step w (s, d) (name, Some (mkQuote sym c c (pct_change c c)))
                   = (s, d)).
Proof.
  intro H. split; [|split].
  - unfold fetch_one. now rewrite H.
  - intro Hc. unfold pct_change.
    destruct (Qeq_bool c 0) eqn:E; [apply Qeq_bool_iff in E; contradiction|].
    eexists. split; [reflexivity|]. split.
    + unfold Qminus. rewrite Qplus_opp_r. unfold Qdiv. ring.
    + intros w s d. unfold index_step. cbn [pct].
      assert (Hg : gtb ((c - c) / c * 100) 0 = false).
      { apply gtb_false. unfold Qminus. rewrite Qplus_opp_r. unfold Qdiv.
        rewrite Qmult_0_l, Qmult_0_l. apply Qle_refl. }
      now rewrite Hg.
  - intro Hc. unfold pct_change. rewrite (proj2 (Qeq_bool_iff c 0) Hc).
    split; [reflexivity|]. intros w s d. reflexivity.
Qed.

Lemma single_session_quote_witness :
  fetch_one (fun _ => Some [25000]) "Nikkei" "^N225"
    = Ok ("Nikkei", Some (mkQuote "^N225" 25000 25000 (pct_change 25000 25000)))%string.
Proof.
  apply (proj1 (single_session_quote (fun _ => Some [25000]) "Nikkei" "^N225" 25000 eq_refl)).
Defined.

Lemma fold_min_le l a :
  fold_left Qmin l a <= a /\ forall x, In x l -> fold_left Qmin l a <= x.
Proof.
  revert a. induction l as [|y l IH]; intro a; simpl.
  - split; [apply Qle_refl|intros x []].
  - destruct (IH (Qmin a y)) as [H1 H2]. split.
    + eapply Qle_trans; [exact H1|apply Q.le_min_l].
    + intros x [<-|Hx]; [|now apply H2].
      eapply Qle_trans; [exact H1|apply Q.le_min_r].
Qed.

Lemma fold_max_ge l a :
  a <= fold_left Qmax l a /\ forall x, In x l -> x <= fold_left Qmax l a.
Proof.
  revert a. induction l as [|y l IH]; intro a; simpl.
  - split; [apply Qle_refl|intros x []].
  - destruct (IH (Qmax a y)) as [H1 H2]. split.
    + eapply Qle_trans; [apply Q.le_max_l|exact H1].
    + intros x [<-|Hx]; [|now apply H2].
      eapply Qle_trans; [apply Q.le_max_r|exact H1].
Qed.

Lemma list_min_le qs q : In q qs -> list_min qs <= q.
Proof.
  destruct qs as [|a l]; [intros []|]. simpl. intros [->|Hq].
  - apply (proj1 (fold_min_le l q)).
  - now apply (proj2 (fold_min_le l a)).
Qed.

Lemma list_max_ge qs q : In q qs -> q <= list_max qs.
Proof.
  destruct qs as [|a l]; [intros []|]. simpl. intros [->|Hq].
  - apply (proj1 (fold_max_ge l q)).
  - now apply (proj2 (fold_max_ge l a)).
Qed.

Lemma in_omap_qty cs c q : In c cs -> qty c = Some q -> In q (omap_qty cs).
Proof.
  induction cs as [|c' cs IH]; [intros []|]. intros [->|Hc] Hq; simpl.
  - rewrite Hq. now left.
  - destruct (qty c'); [right|]; now apply IH.
Qed.

(** In exact arithmetic the min-max normalisation lies in [0, 1): the
    denominator carries [eps]. *)
Lemma norm_bounds mn mx q :
  mn <= q -> q <= mx -> 0 <= (q - mn) / (mx - mn + eps) /\ (q - mn) / (mx - mn + eps) < 1.
Proof.
  intros H1 H2. assert (Hd : 0 < mx - mn + eps) by (unfold eps; lra).
  split.
  - apply Qle_shift_div_l; [exact Hd|]. lra.
  - apply Qlt_shift_div_r; [exact Hd|]. unfold eps. lra.
Qed.

Lemma preopen_score_ge_total a b :
  Preopen.score_ge a b = false -> Preopen.score_ge b a = true.
Proof.
  unfold Preopen.score_ge.
  destruct (score a) as [x|], (score b) as [y|]; try discriminate; try reflexivity.
  intro H. apply Qle_bool_iff.
  destruct (Qlt_le_dec x y) as [Hl|Hl]; [now apply Qlt_le_weak|].
  apply Qle_bool_iff in Hl. congruence.
Qed.

(** C4 counterexample: with quantities 100 and 50 (the spec's example,
    gaps +5 and -8), the maximum-quantity row normalises to
    50 / (50 + 1e-9), not to 1. *)
Lemma qty_norm_max_counterexample :
  exists out,
    rank [mkCand (JStr "A") 100 105 (Some 5) (Some 100);
          mkCand (JStr "B") 100 92 (Some (-8)) (Some 50)]%string 6 = Ok out /\
    exists r, In r out /\ qty (cand r) = Some 100 /\
              ~ (exists n, qty_norm r = Some n /\ n == 1).
Proof.
  eexists. split; [reflexivity|].
  eexists. split; [right; left; reflexivity|]. split; [reflexivity|].
  intros [n [Hn Hq]]. injection Hn as <-. vm_compute in Hq. discriminate Hq.
Qed.

(** C4 (amended): for a non-empty candidate set whose ranking completes,
    the quantity of each row is normalised as (qty - min) / (max - min +
    1e-9) over the present quantities, a value in [0, 1] that is 0 at the
    minimum and (max - min) / (max - min + 1e-9) at the maximum, and NaN
    for a row without quantity when some quantity is present; when no
    quantity is present every row gets 0; the composite score is
    0.7 * |gap_pct| + 0.3 * normalised qty, NaN when either is missing;
    the output is the first top_n rows of an ordering of all rows by
    descending score (rows without a numeric score last), whatever the
    order among equal scores. *)
Theorem gap_ranking_formula candidates top_n out :
  candidates <> [] -> rank candidates top_n = Ok out ->
  let qs := omap_qty candidates in
  let rows := map (rank_row qs) candidates in
  List.length out = Nat.min top_n (List.length candidates) /\
  (exists srt, Permutation srt rows /\ Sorted SpecWords.score_desc srt /\
     out = firstn top_n srt) /\
  (forall c g n, In c candidates -> gap_pct c = Some g -> qty_norm (rank_row qs c) = Some n ->
     score (rank_row qs c) = Some (Qabs g * (7 # 10) + n * (3 # 10))) /\
  (forall c, In c candidates -> gap_pct c = None \/ qty_norm (rank_row qs c) = None ->
     score (rank_row qs c) = None) /\
  (qs = [] -> forall c, In c candidates -> qty_norm (rank_row qs c) = Some 0) /\
  (qs <> [] -> forall c, In c candidates -> qty c = None -> qty_norm (rank_row qs c) = None) /\
  (qs <> [] -> forall c q, In c candidates -> qty c = Some q ->
     exists n, qty_norm (rank_row qs c) = Some n /\
       n = (q - list_min qs) / (list_max qs - list_min qs + eps) /\ 0 <= n /\ n <= 1) /\
  (qs <> [] -> forall c, In c candidates -> qty c = Some (list_min qs) ->
     exists n, qty_norm (rank_row qs c) = Some n /\ n == 0) /\
  (qs <> [] -> forall c, In c candidates -> qty c = Some (list_max qs) ->
     exists n, qty_norm (rank_row qs c) = Some n /\
       n = (list_max qs - list_min qs) / (list_max qs - list_min qs + eps)).
Proof.
  intros Hne Hr qs rows.
  assert (Hout : out = firstn top_n (sort_desc Preopen.score_ge rows)).
  { unfold rank in Hr. destruct candidates as [|c0 cs]; [contradiction|].
    destruct (forallb _ _); [discriminate|]. now injection Hr as <-. }
  assert (Hnorm : qs <> [] -> forall c q, In c candidates -> qty c = Some q ->
     exists n, qty_norm (rank_row qs c) = Some n /\
       n = (q - list_min qs) / (list_max qs - list_min qs + eps) /\ 0 <= n /\ n <= 1).
  { intros Hq c q Hc Eq. unfold rank_row, norm_of. cbn [qty_norm].
    destruct qs as [|q0 qs'] eqn:Eqs; [contradiction|]. rewrite <- Eqs, Eq.
    eexists. split; [reflexivity|]. split; [reflexivity|].
    destruct (norm_bounds (list_min qs) (list_max qs) q) as [H0 H1].
    - apply list_min_le. rewrite Eqs. rewrite <- Eqs. eapply in_omap_qty; eauto.
    - apply list_max_ge. eapply in_omap_qty; eauto.
    - split; [exact H0|now apply Qlt_le_weak]. }
  split.
  { rewrite Hout, length_firstn, (Permutation_length (sort_desc_perm _ _ rows)).
    unfold rows. now rewrite length_map. }
  split.
  { exists (sort_desc Preopen.score_ge rows).
    split; [apply sort_desc_perm|]. split; [|exact Hout].
    apply (Sorted_mono (fun a b => Preopen.score_ge a b = true)).
    - intros a b. unfold Preopen.score_ge, SpecWords.score_desc.
      destruct (score a) as [x|], (score b) as [y|]; try discriminate; try tauto.
      intro H. exists x. split; [reflexivity|]. now apply Qle_bool_iff.
    - apply sort_desc_sorted. exact preopen_score_ge_total. }
  split.
  { intros c g n _ Eg En. unfold rank_row in *. cbn [qty_norm score] in *.
    rewrite Eg, En. reflexivity. }
  split.
  { intros c _ [Eg|En]; unfold rank_row in *; cbn [qty_norm score] in *.
    - rewrite Eg. reflexivity.
    - rewrite En. destruct (option_map Qabs (gap_pct c)); reflexivity. }
  split.
  { intros Hq c _. unfold rank_row, norm_of. cbn [qty_norm]. now rewrite Hq. }
  split.
  { intros Hq c _ Eq. unfold rank_row, norm_of. cbn [qty_norm].
    destruct qs; [contradiction|]. now rewrite Eq. }
  split; [exact Hnorm|]. split.
  - intros Hq c Hc Eq. destruct (Hnorm Hq c _ Hc Eq) as [n [Hn [-> _]]].
    exists ((list_min qs - list_min qs) / (list_max qs - list_min qs + eps)).
    split; [exact Hn|]. unfold Qminus. rewrite Qplus_opp_r. unfold Qdiv. ring.
  - intros Hq c Hc Eq. destruct (Hnorm Hq c _ Hc Eq) as [n [Hn [-> _]]].
    eexists. split; [exact Hn|reflexivity].
Qed.

Lemma gap_ranking_formula_witness :
  exists out,
    rank [mkCand (JStr "A") 100 105 (Some 5) (Some 100);
          mkCand (JStr "B") 100 92 (Some (-8)) (Some 50)]%string 6 = Ok out /\
    List.length out = Nat.min 6 2.
Proof.
  eexists. split; [reflexivity|].
  apply (gap_ranking_formula
           [mkCand (JStr "A") 100 105 (Some 5) (Some 100);
            mkCand (JStr "B") 100 92 (Some (-8)) (Some 50)]%string 6).
  - discriminate.
  - reflexivity.
Defined.

End Claims.

(** ** Further properties of the code *)
Module Extras.
Import Scanner Trend Preopen Run Claims.

(** [pct_change] fails only on a zero base; for a positive base its sign
    is that of the move. *)
Theorem pct_change_sign curr prev :
  (pct_change curr prev = None <-> prev == 0) /\
  (0 < prev -> exists p, pct_change curr prev = Some p /\
     (0 < p <-> prev < curr) /\ (p < 0 <-> curr < prev) /\ (p == 0 <-> curr == prev)).
Proof.
  unfold pct_change. split.
  - destruct (Qeq_bool prev 0) eqn:E.
    + apply Qeq_bool_iff in E. split; auto.
    + split; [discriminate|]. intro H. apply Qeq_bool_iff in H. congruence.
  - intro Hp. destruct (Qeq_bool prev 0) eqn:E.
    + apply Qeq_bool_iff in E. rewrite E in Hp. discriminate Hp.
    + eexists. split; [reflexivity|]. unfold Qdiv.
      assert (Hk : 0 < / prev) by now apply Qinv_lt_0_compat.
      set (k := / prev) in *. clearbody k.
      repeat split; intro H; nra.
Qed.

Lemma fetch_one_raise h name sym :
  h sym = None -> fetch_one h name sym = Raise ValueError.
Proof. intro H. unfold fetch_one. now rewrite H. Qed.

Lemma fetch_one_name h name sym e :
  fetch_one h name sym = Ok e -> fst e = name.
Proof.
  unfold fetch_one. destruct (h sym) as [[|c cs]|]; intro H; try discriminate;
    now injection H as <-.
Qed.

(** [fetch_yf_symbols] returns one entry per name, in order; there is no
    [try], so one failing history call aborts the whole fetch. *)
Theorem fetch_yf_symbols_all_or_nothing h symbols :
  (forall out, fetch_yf_symbols h symbols = Ok out -> map fst out = map fst symbols) /\
  ((exists sym, In sym (map snd symbols) /\ h sym = None) ->
     exists e, fetch_yf_symbols h symbols = Raise e).
Proof.
  induction symbols as [|[name sym] rest [IH1 IH2]]; split.
  - intros out H. now injection H as <-.
  - intros [s [[] _]].
  - intros out. simpl. destruct (fetch_one h name sym) as [e|e] eqn:E; [|discriminate].
    destruct (fetch_yf_symbols h rest) as [out'|e']; [|discriminate].
    intro H. injection H as <-. simpl. rewrite (fetch_one_name _ _ _ _ E).
    now rewrite (IH1 out' eq_refl).
  - intros [s [Hs Hn]]. simpl in Hs |- *. destruct Hs as [<-|Hs].
    + rewrite (fetch_one_raise _ name _ Hn). eauto.
    + destruct (fetch_one h name sym); [|eauto].
      destruct (IH2 (ex_intro _ s (conj Hs Hn))) as [e' ->]. eauto.
Qed.

Lemma fetch_yf_symbols_length h symbols out :
  fetch_yf_symbols h symbols = Ok out -> List.length out = List.length symbols.
Proof.
  intro H. apply (proj1 (fetch_yf_symbols_all_or_nothing h symbols)) in H.
  rewrite <- (length_map fst out), H. apply length_map.
Qed.

(** [fetch_india_vix] builds its quote exactly as [fetch_yf_symbols]
    builds an index quote, and likewise propagates a failing call. *)
Theorem fetch_india_vix_as_index h :
  fetch_india_vix h =
  match fetch_one h "India VIX" INDIA_VIX with
  | Ok (_, q) => Ok q
  | Raise e => Raise e
  end.
Proof.
  unfold fetch_india_vix, fetch_one. destruct (h INDIA_VIX) as [[|c cs]|]; reflexivity.
Qed.

Lemma qlen_cons {A} (x : A) l : qlen (x :: l) == qlen l + 1.
Proof.
  unfold qlen. cbn [List.length]. rewrite Nat2Z.inj_succ. unfold Z.succ.
  rewrite inject_Z_plus. reflexivity.
Qed.

Lemma qlen_nonneg {A} (l : list A) : 0 <= qlen l.
Proof.
  unfold qlen. change 0 with (inject_Z 0). rewrite <- Zle_Qle. lia.
Qed.

Lemma index_contrib_bound w e : 0 <= w -> - w <= SpecWords.index_contrib w e <= w.
Proof.
  intro Hw. unfold SpecWords.index_contrib.
  destruct (snd e) as [info|]; [destruct (pct info) as [p|]|];
    try destruct (Qlt_le_dec 0 p); split; lra.
Qed.

Lemma sum_contrib_bound w l :
  0 <= w -> - (w * qlen l) <= sumQ (map (SpecWords.index_contrib w) l) <= w * qlen l.
Proof.
  intro Hw. induction l as [|e l IH]; cbn [map sumQ].
  - unfold qlen. cbn [List.length Z.of_nat]. change (inject_Z 0) with 0. split; lra.
  - rewrite qlen_cons. destruct (index_contrib_bound w e Hw). split; nra.
Qed.

Lemma vix_contrib_bound v : - (3 # 2) <= SpecWords.vix_contrib v <= 1 # 2.
Proof.
  unfold SpecWords.vix_contrib.
  destruct v as [vq|]; [destruct (pct vq) as [p|]|];
    try destruct (Qlt_le_dec 3 p); try destruct (Qlt_le_dec p (-2)); split; lra.
Qed.

(** The bias score is bounded by the number of quotes: each primary
    quote moves it by at most 1, each secondary one by at most 0.5, the
    VIX by -1.5 to +0.5. *)
Theorem score_market_bounds us asia gift vix :
  - (qlen us + (1 # 2) * qlen asia + (3 # 2)) <= fst (score_market us asia gift vix) /\
  fst (score_market us asia gift vix) <= qlen us + (1 # 2) * qlen asia + (1 # 2).
Proof.
  unfold score_market.
  destruct (index_fold 1 us 0 []) as [U1 _].
  destruct (fold_left (index_step 1) us (0, [])) as [s1 d1]. cbn [fst] in U1.
  destruct (index_fold (1 # 2) asia s1 d1) as [A1 _].
  destruct (fold_left (index_step (1 # 2)) asia (s1, d1)) as [s2 d2]. cbn [fst] in A1.
  destruct (gift_step_spec gift (s2, d2)) as [G1 _].
  destruct (gift_step gift (s2, d2)) as [s3 d3]. cbn [fst] in G1.
  destruct (vix_step_spec vix s3 d3) as [V1 _].
  rewrite V1, G1, A1, U1.
  destruct (sum_contrib_bound 1 us) as [B1 B2]; [lra|].
  destruct (sum_contrib_bound (1 # 2) asia) as [C1 C2]; [lra|].
  destruct (vix_contrib_bound vix).
  split; lra.
Qed.

Lemma rank_length cands n out :
  rank cands n = Ok out -> (List.length out <= n)%nat.
Proof.
  unfold rank. destruct cands as [|c cs].
  - intro H. injection H as <-. simpl. lia.
  - destruct (forallb _ _); [discriminate|]. intro H. injection H as <-.
    rewrite length_firstn. lia.
Qed.

(** [run_scan]: the bias score lies in [-5.5, 4.5] (three primary
    indices, two secondary ones and the VIX), the label is the one of
    that score, and the watchlist has at most 6 entries. *)
Theorem run_scan_outcome pf h gift pre score b details watch :
  run_scan pf h gift pre = Ok (score, b, details, watch) ->
  - (11 # 2) <= score /\ score <= 9 # 2 /\ b = bias_of score /\
  (List.length watch <= 6)%nat.
Proof.
  unfold run_scan.
  destruct (fetch_yf_symbols h US_SYMBOLS) as [us|] eqn:Eu; [|discriminate].
  destruct (fetch_yf_symbols h ASIA_SYMBOLS) as [asia|] eqn:Ea; [|discriminate].
  destruct (fetch_india_vix h) as [vix|]; [|discriminate].
  pose proof (score_market_bounds us asia gift vix) as Hb.
  destruct (score_market us asia gift vix) as [sc det]. cbn [fst] in Hb.
  destruct (analyze_preopen_and_pick_stocks pf h pre DEFAULT_STOCK_POOL 6) as [w|] eqn:Ew;
    [|discriminate].
  intro H. injection H as <- <- <- <-.
  assert (Lu : qlen us == 3).
  { unfold qlen. now rewrite (fetch_yf_symbols_length _ _ _ Eu). }
  assert (La : qlen asia == 2).
  { unfold qlen. now rewrite (fetch_yf_symbols_length _ _ _ Ea). }
  rewrite Lu, La in Hb.
  split; [lra|]. split; [lra|]. split; [reflexivity|].
  unfold analyze_preopen_and_pick_stocks in Ew.
  destruct (if truthy pre then _ else _) as [cs|]; [|discriminate].
  eapply rank_length. exact Ew.
Qed.

Lemma run_scan_outcome_witness :
  exists score b details watch,
    run_scan (fun _ => None) (fun _ => Some [5]) None JNull = Ok (score, b, details, watch) /\
    b = BEARISH /\
    - (11 # 2) <= score /\ score <= 9 # 2 /\ b = bias_of score /\
    (List.length watch <= 6)%nat.
Proof.
  do 4 eexists. split; [reflexivity|]. split; [reflexivity|].
  eapply (run_scan_outcome (fun _ => None) (fun _ => Some [5]) None JNull).
  reflexivity.
Defined.

(** [run_scan] aborts when any reference history call (an index or the
    VIX) raises: none of those fetches is guarded. *)
Theorem run_scan_reference_failure pf h gift pre :
  (exists sym, In sym (map snd US_SYMBOLS ++ map snd ASIA_SYMBOLS ++ [INDIA_VIX]) /\
               h sym = None) ->
  exists e, run_scan pf h gift pre = Raise e.
Proof.
  intros [sym [Hin Hn]]. unfold run_scan.
  apply in_app_or in Hin. destruct Hin as [Hin|Hin].
  - destruct (proj2 (fetch_yf_symbols_all_or_nothing h US_SYMBOLS)
                (ex_intro _ sym (conj Hin Hn))) as [e ->]. eauto.
  - destruct (fetch_yf_symbols h US_SYMBOLS); [|eauto].
    apply in_app_or in Hin. destruct Hin as [Hin|Hin].
    + destruct (proj2 (fetch_yf_symbols_all_or_nothing h ASIA_SYMBOLS)
                  (ex_intro _ sym (conj Hin Hn))) as [e ->]. eauto.
    + destruct (fetch_yf_symbols h ASIA_SYMBOLS); [|eauto].
      destruct Hin as [<-|[]]. unfold fetch_india_vix. rewrite Hn. eauto.
Qed.

Lemma run_scan_reference_failure_witness :
  exists e, run_scan (fun _ => None)
              (fun s => if String.eqb s "^INDIAVIX" then None else Some [5]) None JNull
            = Raise e.
Proof.
  apply run_scan_reference_failure.
  exists "^INDIAVIX"%string. split; [simpl; tauto|reflexivity].
Defined.



(** A result of [get_latest_indicators] exists only for at least 50
    complete bars; it is tagged with the requested ticker and its price
    fields are those of the last complete bar. *)
Theorem get_latest_indicators_success history ema rsi_ta adx_ta t d :
  get_latest_indicators history ema rsi_ta adx_ta t = Some d ->
  exists data r, history t = Some data /\ (50 <= List.length (dropna data))%nat /\
    dropna data = removelast (dropna data) ++ [r] /\
    ticker d = t /\ current_price d = r_close r /\ open_price d = r_open r /\
    high d = r_high r /\ low d = r_low r.
Proof.
  unfold get_latest_indicators.
  destruct (history t) as [data|]; [|discriminate].
  destruct (List.length data =? 0)%nat; [discriminate|].
  destruct (List.length (dropna data) <? 50)%nat eqn:El; [discriminate|].
  apply Nat.ltb_ge in El.
  destruct (adx_ta 14%nat (dropna data)) as [col|]; [|discriminate].
  destruct (classify _ _ _ _) as [[[[up bull] strong] sc] sig].
  intro H. injection H as <-.
  exists data, (last (dropna data) (mkRow 0 0 0 0 0)).
  split; [reflexivity|]. split; [exact El|]. split; [|repeat split].
  apply app_removelast_last. intro E. rewrite E in El. simpl in El. lia.
Qed.

Lemma get_latest_indicators_success_witness :
  exists d,
    get_latest_indicators
      (fun _ => Some (repeat (mkBar (Some 1) (Some 2) (Some 1) (Some 2) (Some 10)
                                    (Some 0) (Some 0)) 50))
      (fun _ _ => [1]) (fun _ _ => [55]) (fun _ _ => Some [20]) "TCS.NS" = Some d /\
    current_price d = 2.
Proof.
  eexists. split; [reflexivity|].
  destruct (get_latest_indicators_success
      (fun _ => Some (repeat (mkBar (Some 1) (Some 2) (Some 1) (Some 2) (Some 10)
                                    (Some 0) (Some 0)) 50))
      (fun _ _ => [1]) (fun _ _ => [55]) (fun _ _ => Some [20]) "TCS.NS" _ eq_refl)
    as [data [r [Hd [_ [Hr [_ [Hc _]]]]]]].
  rewrite Hc. injection Hd as <-. simpl in Hr.
  injection Hr as Hr. rewrite <- Hr. reflexivity.
Defined.



Lemma get_latest_indicators_ticker history ema rsi_ta adx_ta t d :
  get_latest_indicators history ema rsi_ta adx_ta t = Some d -> ticker d = t.
Proof.
  intro H. destruct (get_latest_indicators_success _ _ _ _ _ _ H)
    as [_ [_ [_ [_ [_ [Ht _]]]]]]. exact Ht.
Qed.

(** [scan_stocks] splits over concatenated batches, and the tickers of
    its results are the input tickers whose computation succeeded, in
    input order (duplicates kept). *)
Theorem scan_stocks_batches history ema rsi_ta adx_ta xs ys :
  scan_stocks history ema rsi_ta adx_ta (xs ++ ys) =
    scan_stocks history ema rsi_ta adx_ta xs ++ scan_stocks history ema rsi_ta adx_ta ys /\
  map ticker (scan_stocks history ema rsi_ta adx_ta xs) =
    filter (fun t => match get_latest_indicators history ema rsi_ta adx_ta t with
                     | Some _ => true | None => false end) xs.
Proof.
  split; induction xs as [|t xs IH]; simpl; try reflexivity.
  - destruct (get_latest_indicators history ema rsi_ta adx_ta t); simpl; congruence.
  - destruct (get_latest_indicators history ema rsi_ta adx_ta t) eqn:E; simpl;
      [|exact IH].
    rewrite (get_latest_indicators_ticker _ _ _ _ _ _ E). congruence.
Qed.

Lemma row_candidate_shape pf r c :
  row_candidate pf r = Ok (Some c) ->
  truthy (c_symbol c) = true /\ (exists g, gap_pct c = Some g) /\ (exists q, qty c = Some q).
Proof.
  destruct r as [| | | | |o]; try discriminate. unfold row_candidate.
  destruct (py_float pf (por (get o "prev_close") (por (get o "prevClose") (por (get o "previousClose") (JNum 0))))) as [prev|]; [|discriminate].
  destruct (py_float pf (por (get o "open") (por (get o "preopen_price")
              (por (get o "preopen") (JNum prev))))) as [op|],
    (py_float pf (por (get o "qty") (por (get o "quantity") (por (get o "tradedQty") (JNum 0))))) as [q|]; try discriminate.
  destruct (truthy _) eqn:Es; [|discriminate]. cbn [negb].
  intro H. injection H as <-. cbn [c_symbol gap_pct qty].
  split; [exact Es|]. split; [|eauto].
  destruct (gtb prev 0) eqn:Eg; [|eauto].
  apply gtb_spec in Eg. unfold pct_change.
  destruct (Qeq_bool prev 0) eqn:E0; [|eauto].
  apply Qeq_bool_iff in E0. rewrite E0 in Eg. discriminate Eg.
Qed.

Lemma snapshot_candidates_shape pf rows cs :
  snapshot_candidates pf rows = Ok cs ->
  Forall (fun c => truthy (c_symbol c) = true /\ (exists g, gap_pct c = Some g) /\
                   (exists q, qty c = Some q)) cs.
Proof.
  revert cs. induction rows as [|r rows IH]; intros cs; simpl.
  - intro H. injection H as <-. constructor.
  - destruct (row_candidate pf r) as [oc|] eqn:Er; [|discriminate].
    destruct (snapshot_candidates pf rows) as [cs'|]; [|discriminate].
    intro H. injection H as <-. specialize (IH cs' eq_refl).
    destruct oc as [c|]; [|exact IH].
    constructor; [exact (row_candidate_shape _ _ _ Er)|exact IH].
Qed.

(** Every candidate taken from the snapshot has a truthy symbol, a
    numeric gap and a numeric quantity; a dictionary row whose symbol is
    falsy, or whose previous close, pre-open price or quantity does not
    convert to a float, is skipped without affecting the other rows. *)
Theorem snapshot_candidates_wellformed pf rows cs o rs :
  (snapshot_candidates pf rows = Ok cs ->
   Forall (fun c => truthy (c_symbol c) = true /\ (exists g, gap_pct c = Some g) /\
                    (exists q, qty c = Some q)) cs) /\
  ((truthy (por (get o "symbol") (por (get o "scrip") (get o "name"))) = false \/
    py_float pf (por (get o "prev_close") (por (get o "prevClose") (por (get o "previousClose") (JNum 0)))) = None \/
    py_float pf (por (get o "qty") (por (get o "quantity") (por (get o "tradedQty") (JNum 0)))) = None \/
    (exists prev, py_float pf (por (get o "prev_close") (por (get o "prevClose") (por (get o "previousClose") (JNum 0)))) = Some prev /\
       py_float pf (por (get o "open") (por (get o "preopen_price") (por (get o "preopen") (JNum prev)))) = None)) ->
   snapshot_candidates pf (JObj o :: rs) = snapshot_candidates pf rs).
Proof.
  split; [apply snapshot_candidates_shape|].
  intro Hbad.
  assert (Hn : row_candidate pf (JObj o) = Ok None).
  { unfold row_candidate.
    destruct (py_float pf (por (get o "prev_close") (por (get o "prevClose") (por (get o "previousClose") (JNum 0))))) as [prev|] eqn:Ep; [|reflexivity].
    destruct (py_float pf (por (get o "open") (por (get o "preopen_price") (por (get o "preopen") (JNum prev))))) as [op|] eqn:Eo,
      (py_float pf (por (get o "qty") (por (get o "quantity") (por (get o "tradedQty") (JNum 0))))) as [q|] eqn:Eq; try reflexivity.
    destruct Hbad as [Hs|[Hb|[Hb|[prev' [Hb Ho]]]]].
    - rewrite Hs. reflexivity.
    - discriminate.
    - discriminate.
    - injection Hb as <-. congruence. }
  cbn [snapshot_candidates]. rewrite Hn.
  destruct (snapshot_candidates pf rs); reflexivity.
Qed.

Lemma snapshot_candidates_wellformed_witness :
  snapshot_candidates (fun _ => None)
    [JObj [("scrip", JStr ""); ("prev_close", JNum 10)];
     JObj [("symbol", JStr "SBIN"); ("prev_close", JNum 800); ("open", JNum 808)]]%string
  = snapshot_candidates (fun _ => None)
    [JObj [("symbol", JStr "SBIN"); ("prev_close", JNum 800); ("open", JNum 808)]]%string.
Proof.
  apply (proj2 (snapshot_candidates_wellformed (fun _ => None) [] []
    [("scrip", JStr ""); ("prev_close", JNum 10)]%string
    [JObj [("symbol", JStr "SBIN"); ("prev_close", JNum 800); ("open", JNum 808)]]%string)).
  left. reflexivity.
Defined.

Lemma In_firstn_In {A} n (l : list A) x : In x (firstn n l) -> In x l.
Proof.
  intro H. rewrite <- (firstn_skipn n l). apply in_or_app. now left.
Qed.

(** When the snapshot yields candidates the ranking never raises: its
    numeric gaps rule out the all-[None] [gap_pct] column, and the
    watchlist has min(top_n, number of candidates) rows. *)
Theorem analyze_snapshot_no_error pf h pre pool n c cs :
  truthy pre = true -> snapshot_candidates pf (rows_of pre) = Ok (c :: cs) ->
  exists out, analyze_preopen_and_pick_stocks pf h pre pool n = Ok out /\
    List.length out = Nat.min n (S (List.length cs)).
Proof.
  intros Ht Hs. pose proof (snapshot_candidates_shape _ _ _ Hs) as Hw.
  inversion Hw as [|c' cs' [_ [[g Hg] _]] _]; subst.
  unfold analyze_preopen_and_pick_stocks. rewrite Ht, Hs. unfold rank.
  cbn [forallb]. rewrite Hg. cbn [andb].
  eexists. split; [reflexivity|].
  rewrite length_firstn, (Permutation_length (sort_desc_perm _ _ _)), length_map.
  reflexivity.
Qed.

Lemma analyze_snapshot_no_error_witness :
  exists out,
    analyze_preopen_and_pick_stocks (fun _ => None) (fun _ => None)
      (JObj [("data", JList [JObj [("symbol", JStr "SBIN"); ("prev_close", JNum 800);
                                    ("open", JNum 808)]])])%string
      DEFAULT_STOCK_POOL 6 = Ok out /\ List.length out = 1%nat.
Proof.
  destruct (analyze_snapshot_no_error (fun _ => None) (fun _ => None)
      (JObj [("data", JList [JObj [("symbol", JStr "SBIN"); ("prev_close", JNum 800);
                                    ("open", JNum 808)]])])%string
      DEFAULT_STOCK_POOL 6
      (mkCand (JStr "SBIN") 800 808 (pct_change 808 800) (Some 0))%string [] eq_refl eq_refl)
    as [out [Ho Hl]].
  exists out. split; [exact Ho|exact Hl].
Defined.

(** A snapshot row without any pre-open price field takes the prior
    close as its pre-open price, so its gap is 0. *)
Theorem missing_open_zero_gap pf o c :
  assoc "open" o = None -> assoc "preopen_price" o = None -> assoc "preopen" o = None ->
  row_candidate pf (JObj o) = Ok (Some c) ->
  preopen c = prev_close c /\ exists g, gap_pct c = Some g /\ g == 0.
Proof.
  intros Ho Hpp Hp.
  assert (Eop : forall x, por (get o "open") (por (get o "preopen_price")
                  (por (get o "preopen") (JNum x))) = JNum x).
  { intro x. unfold get. rewrite Ho, Hpp, Hp. reflexivity. }
  unfold row_candidate.
  destruct (py_float pf (por (get o "prev_close") (por (get o "prevClose") (por (get o "previousClose") (JNum 0))))) as [prev|]; [|discriminate].
  rewrite Eop. cbn [py_float]. destruct (py_float pf (por (get o "qty") (por (get o "quantity") (por (get o "tradedQty") (JNum 0))))) as [q|]; [|discriminate].
  destruct (negb (truthy _)); [discriminate|].
  intro H. injection H as <-. cbn [preopen prev_close gap_pct].
  split; [reflexivity|].
  destruct (gtb prev 0) eqn:Eg; [|eexists; split; [reflexivity|apply Qeq_refl]].
  apply gtb_spec in Eg. unfold pct_change.
  destruct (Qeq_bool prev 0) eqn:E0.
  - apply Qeq_bool_iff in E0. rewrite E0 in Eg. discriminate Eg.
  - eexists. split; [reflexivity|]. unfold Qminus. rewrite Qplus_opp_r.
    unfold Qdiv. ring.
Qed.

Lemma missing_open_zero_gap_witness :
  preopen (mkCand (JStr "ITC") 400 400 (pct_change 400 400) (Some 0))%string
    = prev_close (mkCand (JStr "ITC") 400 400 (pct_change 400 400) (Some 0))%string.
Proof.
  apply (proj1 (missing_open_zero_gap (fun _ => None)
    [("symbol", JStr "ITC"); ("prevClose", JNum 400)]%string _
    eq_refl eq_refl eq_refl eq_refl)).
Defined.

Definition same_truth (a b : jval) : Prop :=
  truthy a = truthy b /\ (truthy a = true -> a = b).

Lemma get_shadow o k v k' :
  assoc k o = None -> truthy v = false -> same_truth (get ((k, v) :: o) k') (get o k').
Proof.
  intros Hk Hv. unfold get. cbn [assoc].
  destruct (String.eqb k' k) eqn:E.
  - apply String.eqb_eq in E. subst k'. rewrite Hk. unfold same_truth.
    rewrite Hv. split; [reflexivity|discriminate].
  - split; reflexivity.
Qed.

Lemma por_same_l a b c : same_truth a b -> por a c = por b c.
Proof.
  intros [Ht He]. unfold por. rewrite <- Ht.
  destruct (truthy a) eqn:E; [now rewrite (He eq_refl)|reflexivity].
Qed.

Lemma por_same_r a b b' : same_truth b b' -> same_truth (por a b) (por a b').
Proof.
  intro H. unfold por. destruct (truthy a) eqn:E; [split; reflexivity|exact H].
Qed.

(** In a snapshot row, a key holding a falsy value (0, an empty string,
    [None], [False], an empty list or dictionary) is handled exactly as
    if it were absent: each [or] chain falls through to the next synonym
    or to its default.  So a [prev_close] of 0 falls through to
    [prevClose], then [previousClose], then 0. *)
Theorem falsy_field_as_missing pf o k v :
  assoc k o = None -> truthy v = false ->
  row_candidate pf (JObj ((k, v) :: o)) = row_candidate pf (JObj o).
Proof.
  intros Hk Hv.
  assert (Hp : forall k' c, por (get ((k, v) :: o) k') c = por (get o k') c).
  { intros k' c. apply por_same_l, get_shadow; assumption. }
  cbv beta iota zeta delta [row_candidate]. rewrite !Hp.
  destruct (py_float pf (por (get o "prev_close") (por (get o "prevClose") (por (get o "previousClose") (JNum 0))))) as [prev|]; [|reflexivity].
  rewrite !Hp.
  destruct (py_float pf (por (get o "open") (por (get o "preopen_price") (por (get o "preopen") (JNum prev))))) as [op|], (py_float pf (por (get o "qty") (por (get o "quantity") (por (get o "tradedQty") (JNum 0))))) as [q|]; try reflexivity.
  destruct (por_same_r (get o "symbol") _ _
             (por_same_r (get o "scrip") _ _ (get_shadow o k v "name" Hk Hv)))
    as [Ht He].
  rewrite Ht. destruct (truthy (por (get o "symbol") (por (get o "scrip") (get o "name")))) eqn:E; [|reflexivity].
  rewrite (He Ht). reflexivity.
Qed.

Lemma falsy_field_as_missing_witness :
  row_candidate (fun _ => None)
    (JObj [("prev_close", JNum 0); ("symbol", JStr "LT"); ("prevClose", JNum 3500);
           ("open", JNum 3510)])%string
  = row_candidate (fun _ => None)
    (JObj [("symbol", JStr "LT"); ("prevClose", JNum 3500); ("open", JNum 3510)])%string.
Proof.
  apply falsy_field_as_missing; reflexivity.
Defined.

Lemma fallback_qty_none h pool : Forall (fun c => qty c = None) (fallback_candidates h pool).
Proof.
  induction pool as [|s ss IH]; simpl; [constructor|].
  destruct (pool_candidate h s) as [c|] eqn:E; [|exact IH].
  constructor; [|exact IH].
  unfold pool_candidate in E. destruct (h s) as [hist|]; [|discriminate].
  destruct (_ <? _)%nat; [discriminate|]. now injection E as <-.
Qed.

Lemma omap_qty_none cs : Forall (fun c => qty c = None) cs -> omap_qty cs = [].
Proof. induction 1 as [|c cs Hc _ IH]; simpl; [reflexivity|]. now rewrite Hc. Qed.

(** The fallback candidates carry no quantity, so every ranked row gets
    [qty_norm] 0 and its score is 0.7 times its absolute gap. *)
Theorem fallback_scores_gap_only h pool n out :
  rank (fallback_candidates h pool) n = Ok out ->
  forall r, In r out ->
    qty (cand r) = None /\ qty_norm r = Some 0 /\
    forall g, gap_pct (cand r) = Some g -> exists s, score r = Some s /\ s == (7 # 10) * Qabs g.
Proof.
  pose proof (fallback_qty_none h pool) as Hn.
  unfold rank. destruct (fallback_candidates h pool) as [|c0 cs0] eqn:Ef.
  { intro H. injection H as <-. intros r []. }
  destruct (forallb _ _); [discriminate|].
  rewrite (omap_qty_none _ Hn). intros H r Hr. injection H as <-.
  apply In_firstn_In in Hr.
  apply (Permutation_in _ (sort_desc_perm _ score_ge (map (rank_row []) (c0 :: cs0)))) in Hr.
  apply in_map_iff in Hr as [c [<- Hc]].
  rewrite Forall_forall in Hn. specialize (Hn c Hc).
  unfold rank_row. cbn [cand qty_norm score norm_of].
  split; [exact Hn|]. split; [reflexivity|].
  intros g Hg. rewrite Hg. cbn [option_map score_of].
  eexists. split; [reflexivity|]. ring.
Qed.

Lemma fallback_scores_gap_only_witness :
  exists out, rank (fallback_candidates (fun _ => Some [100; 105]) ["TCS.NS"]%string) 6 = Ok out /\
    forall r, In r out ->
      qty (cand r) = None /\ qty_norm r = Some 0 /\
      forall g, gap_pct (cand r) = Some g -> exists s, score r = Some s /\ s == (7 # 10) * Qabs g.
Proof.
  eexists. split; [reflexivity|].
  apply (fallback_scores_gap_only (fun _ => Some [100; 105]) ["TCS.NS"]%string 6).
  reflexivity.
Defined.

Lemma replace_ns_char c s : c <> "."%char -> replace_ns (String c s) = String c (replace_ns s).
Proof.
  intro H. destruct c as [[] [] [] [] [] [] [] []]; try reflexivity.
  exfalso. apply H. reflexivity.
Qed.

Lemma replace_ns_suffix base :
  (forall i, String.get i base <> Some "."%char) ->
  replace_ns (String.append base ".NS") = base.
Proof.
  induction base as [|c rest IH]; intro H; [reflexivity|].
  cbn [String.append]. rewrite replace_ns_char.
  - f_equal. apply IH. intro i. exact (H (S i)).
  - intro E. apply (H 0%nat). cbn. now rewrite E.
Qed.

(** The fallback candidate of a pool entry [base ++ ".NS"], where [base]
    has no dot, is listed under the symbol [base]; it exists only when
    the history has at least two closes. *)
Theorem pool_candidate_symbol h base c :
  (forall i, String.get i base <> Some "."%char) ->
  pool_candidate h (String.append base ".NS") = Some c ->
  c_symbol c = JStr base /\
  exists hist, h (String.append base ".NS") = Some hist /\ (2 <= List.length hist)%nat.
Proof.
  intros Hb. unfold pool_candidate.
  destruct (h _) as [hist|]; [|discriminate].
  destruct (List.length hist <? 2)%nat eqn:El; [discriminate|].
  intro E. injection E as <-. cbn [c_symbol].
  rewrite replace_ns_suffix by exact Hb. split; [reflexivity|].
  exists hist. split; [reflexivity|]. apply Nat.ltb_ge, El.
Qed.

Lemma pool_candidate_symbol_witness :
  c_symbol (mkCand (JStr "TCS") 100 105 (pct_change 105 100) None)%string = JStr "TCS"%string.
Proof.
  refine (proj1 (pool_candidate_symbol (fun _ => Some [100; 105]) "TCS"%string _ _ eq_refl)).
  intros [|[|[|i]]]; cbn; discriminate.
Defined.

(** The GIFT Nifty value, when found, exceeds 1000 and is the first
    number on the page that parses to a value above 1000. *)
Theorem scrape_gift_nifty_first pf page v :
  scrape_gift_nifty pf page = Some v ->
  1000 < v /\ exists nums pre s post, page = Some nums /\ nums = pre ++ s :: post /\
    pf s = Some v /\
    Forall (fun m => match pf m with Some u => u <= 1000 | None => True end) pre.
Proof.
  destruct page as [nums|]; [|discriminate]. cbn [scrape_gift_nifty].
  intro H. enough (G : 1000 < v /\ exists pre s post, nums = pre ++ s :: post /\
    pf s = Some v /\
    Forall (fun m => match pf m with Some u => u <= 1000 | None => True end) pre).
  { destruct G as [Hv [pre [s [post [E [Hs Hp]]]]]].
    split; [exact Hv|]. exists nums, pre, s, post. auto. }
  induction nums as [|s ns IH]; cbn [first_over_1000] in H; [discriminate|].
  destruct (pf s) as [u|] eqn:Es.
  - destruct (gtb u 1000) eqn:Eg.
    + injection H as <-. split; [apply gtb_spec, Eg|].
      exists [], s, ns. auto.
    + destruct (IH H) as [Hv [pre [s' [post [E [Hs Hp]]]]]].
      split; [exact Hv|]. exists (s :: pre), s', post. subst ns.
      split; [reflexivity|]. split; [exact Hs|]. constructor; [|exact Hp].
      rewrite Es. apply gtb_false, Eg.
  - destruct (IH H) as [Hv [pre [s' [post [E [Hs Hp]]]]]].
    split; [exact Hv|]. exists (s :: pre), s', post. subst ns.
    split; [reflexivity|]. split; [exact Hs|]. constructor; [|exact Hp].
    rewrite Es. exact I.
Qed.

Lemma scrape_gift_nifty_first_witness :
  1000 < 24500.
Proof.
  exact (proj1 (scrape_gift_nifty_first
    (fun s => if String.eqb s "24500" then Some 24500
              else if String.eqb s "12" then Some 12 else None)
    (Some ["12"; "abc"; "24500"; "25000"])%string 24500 eq_refl)).
Defined.

End Extras.
